(** * Inline-completion provider of the Codeium React code editor

    A shallow embedding of
    [src/components/CodeiumEditor/CompletionProvider.ts] and of the offset
    translation helpers it imports from [utils/utf], followed by the
    properties of the provider that the specification states.

    Conventions.
    - A JavaScript string that is scanned by code unit (the document text)
      is a [list N] of 16-bit code units.  Identifiers and the fixed status
      messages are Rocq [string]s.
    - Offsets and counts are [N]; a protobuf [uint64] (a JS [bigint]) is an
      [N] as well, and [Number(...)] of it is written out ([Number_of_bigint]).
    - A value that may be [undefined] is an [option].
    - Fields keep their names; where two records have a field of the same
      name the later one carries a prefix ([this_otherDocuments] is the
      provider's [otherDocuments], [md_apiKey] the metadata's [apiKey]).
    - Arrays live in a store and are named by references, because the
      provider's [otherDocuments] array is shared with the embedder.
    - The effects of [provideInlineCompletions] (status and message
      callbacks, console output, the network call) are threaded through a
      small monad: a computation takes the state (the provider object and
      the array store) and gives a value or a thrown error, the new state
      and the effects it produced, in program order. *)

From Stdlib Require Import NArith ZArith Lia Bool List SpecFloat.
From stdpp Require Import base option list strings pretty gmap.

Local Open Scope N_scope.

(** ** utils/utf: the offset translator *)

Module utf.

(** UTF-16 surrogate ranges. *)
Definition isHighSurrogate (c : N) : bool := (0xD800 <=? c) && (c <=? 0xDBFF).
Definition isLowSurrogate (c : N) : bool := (0xDC00 <=? c) && (c <=? 0xDFFF).

(** Modelled from the spec: [utils/utf] is not among the sources; section
    4.1 gives the UTF-8 length of a code point: 1 byte up to 0x7F, 2 up to
    0x7FF, 3 up to 0xFFFF, 4 above. *)
Definition numUtf8BytesForCodePoint (cp : N) : N :=
  if cp <=? 0x7F then 1
  else if cp <=? 0x7FF then 2
  else if cp <=? 0xFFFF then 3
  else 4.

(** Modelled from the spec: [utils/utf] is not among the sources.  Section
    4.1: walk the text by code point while the code-unit offset is not yet
    reached and add up the UTF-8 bytes of each code point: a high surrogate
    followed by a low surrogate is one code point of 2 code units and 4
    bytes; a lone surrogate is one unit counted with the 3-byte rule; any
    other unit is its own code point.  The scan stops at the offset or at
    the end of the text, whichever comes first. *)
Fixpoint codeUnitsToUtf8Bytes (text : list N) (codeUnitOffset : N) : N :=
  match text with
  | [] => 0
  | c :: rest =>
      if codeUnitOffset =? 0 then 0
      else if isHighSurrogate c then
        match rest with
        | l :: rest' =>
            if isLowSurrogate l
            then 4 + codeUnitsToUtf8Bytes rest' (codeUnitOffset - 2)
            else 3 + codeUnitsToUtf8Bytes rest (codeUnitOffset - 1)
        | [] => 3
        end
      else numUtf8BytesForCodePoint c
           + codeUnitsToUtf8Bytes rest (codeUnitOffset - 1)
  end.

(** Modelled from the spec: [utils/utf] is not among the sources.  Section
    4.1: the inverse scan walks the code points, accumulating their UTF-8
    cost, and stops as soon as the accumulated count reaches the byte
    offset; it returns the code-unit index reached.  When the byte offset
    lies strictly inside the span of the next code point the scan stops in
    front of it, so the result is the boundary at or before the target and
    a surrogate pair is never split. *)
Fixpoint utf8BytesToCodeUnits (text : list N) (byteOffset : N) : N :=
  match text with
  | [] => 0
  | c :: rest =>
      if byteOffset =? 0 then 0
      else if isHighSurrogate c then
        match rest with
        | l :: rest' =>
            if isLowSurrogate l
            then if byteOffset <? 4 then 0
                 else 2 + utf8BytesToCodeUnits rest' (byteOffset - 4)
            else if byteOffset <? 3 then 0
                 else 1 + utf8BytesToCodeUnits rest (byteOffset - 3)
        | [] => if byteOffset <? 3 then 0 else 1
        end
      else
        let n := numUtf8BytesForCodePoint c in
        if byteOffset <? n then 0
        else 1 + utf8BytesToCodeUnits rest (byteOffset - n)
  end.

(** Modelled from the spec: the other reading of the first sentence of the
    inverse scan in section 4.1, where a code point whose span contains the
    byte offset is still consumed (the accumulated count "exceeds" the
    offset) and the index behind it is returned.  It differs from
    [utf8BytesToCodeUnits] only at byte offsets inside a code point. *)
Fixpoint utf8BytesToCodeUnits_ceil (text : list N) (byteOffset : N) : N :=
  match text with
  | [] => 0
  | c :: rest =>
      if byteOffset =? 0 then 0
      else if isHighSurrogate c then
        match rest with
        | l :: rest' =>
            if isLowSurrogate l
            then 2 + utf8BytesToCodeUnits_ceil rest' (byteOffset - 4)
            else 1 + utf8BytesToCodeUnits_ceil rest (byteOffset - 3)
        | [] => 1
        end
      else 1 + utf8BytesToCodeUnits_ceil rest
                 (byteOffset - numUtf8BytesForCodePoint c)
  end.

(** The code unit at an index, 0 outside the text (only compared with the
    surrogate ranges below). *)
Definition codeUnitAt (text : list N) (i : N) : N := nth (N.to_nat i) text 0.

(** A code-unit offset is on a code-point boundary when it is inside the
    text (its end included) and does not separate a high surrogate from the
    low surrogate that follows it. *)
Definition isCodePointBoundary (text : list N) (offset : N) : bool :=
  (offset <=? N.of_nat (length text))
  && negb ((0 <? offset)
           && isHighSurrogate (codeUnitAt text (offset - 1))
           && isLowSurrogate (codeUnitAt text offset)).

(** The names under which [CompletionProvider.ts] imports the two scans. *)
Definition numCodeUnitsToNumUtf8Bytes := codeUnitsToUtf8Bytes.
Definition numUtf8BytesToNumCodeUnits := utf8BytesToCodeUnits.

End utf.

(** ** JavaScript values used by the provider *)

(** A JS [number] is an IEEE-754 double; [SpecFloat.spec_float] is its data
    model.  In a condition a number is falsy exactly when it is [+0], [-0]
    or [NaN]. *)
Definition number_truthy (x : spec_float) : bool :=
  match x with
  | S754_zero _ | S754_nan => false
  | S754_infinity _ | S754_finite _ _ _ => true
  end.

(** An object (an array included, also the empty one) is truthy;
    [undefined] is falsy. *)
Definition object_truthy {A : Type} (x : option A) : bool :=
  match x with Some _ => true | None => false end.

(** [Number(b)] of a non-negative [bigint]: exact below 2^53, rounded to
    the nearest double (ties to even) above; a [uint64] never overflows. *)
Definition Number_of_bigint (b : N) : N :=
  if b <? 2 ^ 53 then b
  else
    let e := N.log2 b - 52 in
    let q := N.shiftr b e in
    let r := N.land b (N.ones e) in
    let half := N.shiftl 1 (e - 1) in
    let q' := if (half <? r) || ((r =? half) && N.odd q) then q + 1 else q in
    N.shiftl q' e.

(** [BigInt(n)] of a number that holds a non-negative integer. *)
Definition BigInt (n : N) : N := n.

(** [a.slice(start, end)] with [0 <= start] and [0 <= end]: a new array. *)
Definition slice {A : Type} (a : list A) (start end_ : N) : list A :=
  take (N.to_nat (end_ - start)) (drop (N.to_nat start) a).

(** ** Editor and wire data *)

(** Modelled from the spec: [Status.ts] is not among the sources; section 6
    gives the four statuses. *)
Inductive Status := IDLE | PROCESSING | SUCCESS | ERROR.

(** [Code] of @connectrpc/connect. *)
Inductive Code :=
| Canceled | Unknown | InvalidArgument | DeadlineExceeded | NotFound
| AlreadyExists | PermissionDenied | ResourceExhausted | FailedPrecondition
| Aborted | OutOfRange | Unimplemented | Internal | Unavailable | DataLoss
| Unauthenticated.

(** What a rejected promise carries into a [catch] clause: a
    [ConnectError] with its code, or any other thrown value. *)
Inductive JsError :=
| ConnectError (code : Code) (rawMessage : string)
| OtherError (description : string).

(** [Location.ts] (not among the sources): editor positions and ranges. *)
Record Position := { line : N; character : N }.
Record Range := { start : Position; end_ : Position }.
Record MonacoPosition := { lineNumber : N; column : N }.

(** [Document.ts] (not among the sources): the view of the editor model
    that the provider reads. *)
Record Document := {
  getText : list N;
  languageId : string;
  offsetAt : Position -> N;
  positionAt : N -> Position;
}.

Record TextModelResolvedOptions := { tabSize : N; insertSpaces : bool }.

(** [monaco.editor.ITextModel], as far as the provider and [Document] use
    it. *)
Record ITextModel := {
  getValue : list N;
  getLanguageId : string;
  getOffsetAt : MonacoPosition -> N;
  getPositionAt : N -> MonacoPosition;
  getOptions : TextModelResolvedOptions;
}.

(** The [Language] enum of the protocol, by its number. *)
Definition Language := N.
Definition Language_UNSPECIFIED : Language := 0.

Record Metadata := {
  ideName : string;
  ideVersion : string;
  extensionName : string;
  extensionVersion : string;
  md_apiKey : string;
  md_sessionId : string;
}.

(** The protocol's [Document] message ([DocumentInfo] in the provider). *)
Record DocumentInfo := {
  text : list N;
  editorLanguage : string;
  language : Language;
  cursorOffset : N;
  lineEnding : string;
}.

Record EditorOptions := { eo_tabSize : N; eo_insertSpaces : bool }.
Record MultilineConfig := { threshold : spec_float }.

(** Arrays of [DocumentInfo] are named by references into a store. *)
Definition loc := positive.

Record GetCompletionsRequest := {
  metadata : Metadata;
  document : DocumentInfo;
  editorOptions : EditorOptions;
  otherDocuments : loc;
  multilineConfig : option MultilineConfig;
}.

Record Completion := { completionId : string; completion_text : string }.
Record WireRange := { startOffset : N; endOffset : N }.
Record CompletionItem := {
  completion : option Completion;
  range : option WireRange;
}.
Record GetCompletionsResponse := {
  completionItems : option (list CompletionItem);
}.

(** [CancellationToken.ts] (not among the sources): a handle on which
    callbacks are registered. *)
Record CancellationToken := { tokenId : N }.

(** The two callbacks the provider registers on the token. *)
Inductive CancellationCallback :=
| InvokeCancellationCallback
| AbortTheRequest.

(** The signal of the [AbortController] made for a call.  The controller
    and the closure that aborts it are not modelled apart: the signal only
    records the token on which that closure is registered. *)
Record AbortSignal := { abortedBy : CancellationToken }.

Record Headers := { Authorization : string }.
Record CallOptions := { signal : AbortSignal; headers : Headers }.

(** How the promise returned by the client settles. *)
Inductive Settled :=
| Fulfilled (response : GetCompletionsResponse)
| Rejected (err : JsError).

(** The client: how [getCompletions] settles for a request, the contents
    of the request's [otherDocuments] array at the time of the call and the
    call options.  The transport reads its arguments and changes none. *)
Definition PromiseClient :=
  GetCompletionsRequest -> list DocumentInfo -> CallOptions -> Settled.

(** [class MonacoInlineCompletion]. *)
Record Command := { id : string; title : string; arguments : list string }.
Record MonacoInlineCompletion := {
  insertText : string;
  mic_text : string;
  mic_range : Range;
  command : Command;
}.

Definition new_MonacoInlineCompletion
    (insertText : string) (range : Range) (completionId : string)
  : MonacoInlineCompletion :=
  {| insertText := insertText;
     mic_text := insertText;
     mic_range := range;
     command := {| id := "codeium.acceptCompletion";
                   title := "Accept Completion";
                   arguments := [completionId; insertText] |} |}.

(** [monaco.languages.InlineCompletions]: the array built by [map] and
    [filter] has elements of type [MonacoInlineCompletion | undefined] and
    is returned under a type cast. *)
Record InlineCompletions := { items : list (option MonacoInlineCompletion) }.

Definition EDITOR_API_KEY : string := "d49954eb-cfba-4992-980f-d8fb37f0e942".

(** [class MonacoCompletionProvider]: its fields.  The two callbacks
    [setStatus] and [setMessage] belong to the embedder; calling them is an
    effect (below). *)
Record MonacoCompletionProvider := {
  client : PromiseClient;
  sessionId : string;
  this_otherDocuments : loc;
  apiKey : option string;
  multilineModelThreshold : option spec_float;
}.

(** ** Effects *)

(** The observable effects of a call, in program order. *)
Inductive Event :=
| EOnCancellationRequested (token : CancellationToken)
                           (callback : CancellationCallback)
| ESetStatus (status : Status)
| ESetMessage (message : string)
| EConsoleWarn (message : string)
| EGetCompletions (request : GetCompletionsRequest)
                  (sentOtherDocuments : list DocumentInfo)
                  (options : CallOptions)
| ESettled (outcome : Settled).

(** The mutable state a method of the provider can reach: the provider
    object itself and the store of arrays. *)
Record World := {
  this : MonacoCompletionProvider;
  arrays : gmap loc (list DocumentInfo);
}.

(** A computation ends with a value or with a thrown error, in a new
    state, having produced some effects. *)
Record Outcome (A : Type) := {
  result : JsError + A;
  world : World;
  effects : list Event;
}.
Arguments Build_Outcome {A} _ _ _.
Arguments result {A} _.
Arguments world {A} _.
Arguments effects {A} _.

Definition M (A : Type) : Type := World -> Outcome A.

#[global] Instance M_ret : MRet M := fun A a w =>
  {| result := inr a; world := w; effects := [] |}.

#[global] Instance M_bind : MBind M := fun A B k m w =>
  match m w with
  | {| result := inl e; world := w1; effects := es |} =>
      {| result := inl e; world := w1; effects := es |}
  | {| result := inr a; world := w1; effects := es |} =>
      match k a w1 with
      | {| result := r; world := w2; effects := es' |} =>
          {| result := r; world := w2; effects := es ++ es' |}
      end
  end.

(** [try { body } catch (err) { handler }]. *)
Definition try_catch {A : Type} (body : M A) (handler : JsError -> M A)
  : M A := fun w =>
  match body w with
  | {| result := inl e; world := w1; effects := es |} =>
      match handler e w1 with
      | {| result := r; world := w2; effects := es' |} =>
          {| result := r; world := w2; effects := es ++ es' |}
      end
  | {| result := inr a; world := w1; effects := es |} =>
      {| result := inr a; world := w1; effects := es |}
  end.

Definition emit (e : Event) : M unit := fun w =>
  {| result := inr tt; world := w; effects := [e] |}.

Definition gets {A : Type} (f : World -> A) : M A := fun w =>
  {| result := inr (f w); world := w; effects := [] |}.

(** The contents of an array; a reference to no array reads as empty. *)
Definition deref (w : World) (a : loc) : list DocumentInfo :=
  default [] (arrays w !! a).

Definition array_length (a : loc) : M N :=
  gets (fun w => N.of_nat (length (deref w a))).

(** [a.slice(start, end)] allocates the new array. *)
Definition array_slice (a : loc) (start end_ : N) : M loc := fun w =>
  let a' := fresh (dom (arrays w)) in
  {| result := inr a';
     world := {| this := this w;
                 arrays := <[a' := slice (deref w a) start end_]> (arrays w) |};
     effects := [] |}.

(** The embedder's callbacks, the console and the token. *)
Definition setStatus (status : Status) : M unit := emit (ESetStatus status).
Definition setMessage (message : string) : M unit :=
  emit (ESetMessage message).
Definition console_warn (message : string) : M unit :=
  emit (EConsoleWarn message).
Definition onCancellationRequested
    (token : CancellationToken) (callback : CancellationCallback) : M unit :=
  emit (EOnCancellationRequested token callback).

(** [await this.client.getCompletions(request, options)]: the call is
    issued, control is suspended until the promise settles, and a rejection
    is thrown at the [await]. *)
Definition await_getCompletions
    (request : GetCompletionsRequest) (options : CallOptions)
  : M GetCompletionsResponse := fun w =>
  let sent := deref w (otherDocuments request) in
  let outcome := client (this w) request sent options in
  {| result := match outcome with
               | Fulfilled response => inr response
               | Rejected err => inl err
               end;
     world := w;
     effects := [EGetCompletions request sent options; ESettled outcome] |}.

(** [err instanceof ConnectError && err.code === Code.Canceled]. *)
Definition isCanceled (err : JsError) : bool :=
  match err with
  | ConnectError Canceled _ => true
  | _ => false
  end.

(** ** The provider *)

(** What [CompletionProvider.ts] imports from modules of the repository
    that are not among the sources. *)
Class Imports := {
  Document_new : ITextModel -> Document;
  Position_fromMonaco : MonacoPosition -> Position;
  languageIdToEnum : string -> Language;
  getCurrentURL : option string;
  getPackageVersion : option string;
  uuid : string;
}.

Section MonacoCompletionProvider.
Context `{Imports}.

(** The constructor: the object, and the store that holds its empty
    [otherDocuments] array. *)
Definition new_MonacoCompletionProvider
    (grpcClient : PromiseClient) (apiKey : option string)
    (multilineModelThreshold : option spec_float) : World :=
  {| this := {| client := grpcClient;
                sessionId := "react-editor-" +:+ uuid;
                this_otherDocuments := 1%positive;
                apiKey := apiKey;
                multilineModelThreshold := multilineModelThreshold |};
     arrays := {[ 1%positive := [] ]} |}.

Definition getMetadata : M Metadata :=
  self ← gets this;
  mret {| ideName := "web";
          ideVersion := default "unknown" getCurrentURL;
          extensionName := "@codeium/react-code-editor";
          extensionVersion := default "unknown" getPackageVersion;
          md_apiKey := default EDITOR_API_KEY (apiKey self);
          md_sessionId := sessionId self |}.

Definition getAuthHeader : M Headers :=
  metadata ← getMetadata;
  mret {| Authorization :=
            "Basic " +:+ md_apiKey metadata +:+ "-" +:+ md_sessionId metadata |}.

Definition getDocumentInfo (document : Document) (position : Position)
  : M DocumentInfo :=
  let text := getText document in
  let numCodeUnits := offsetAt document position in
  let offset := utf.numCodeUnitsToNumUtf8Bytes text numCodeUnits in
  let language := languageIdToEnum (languageId document) in
  (if language =? Language_UNSPECIFIED
   then console_warn ("Unknown language: " +:+ languageId document)
   else mret tt);;
  mret {| text := text;
          editorLanguage := languageId document;
          language := language;
          cursorOffset := BigInt offset;
          lineEnding := String (Ascii.ascii_of_nat 10) EmptyString |}.

Definition createInlineCompletionItem
    (completionItem : CompletionItem) (document : Document)
  : option MonacoInlineCompletion :=
  match completion completionItem, range completionItem with
  | Some completion, Some range =>
      let text := getText document in
      let startPosition :=
        positionAt document
          (utf.numUtf8BytesToNumCodeUnits text
             (Number_of_bigint (startOffset range))) in
      let endPosition :=
        positionAt document
          (utf.numUtf8BytesToNumCodeUnits text
             (Number_of_bigint (endOffset range))) in
      let range := {| start := startPosition; end_ := endPosition |} in
      Some (new_MonacoInlineCompletion
              (completion_text completion) range (completionId completion))
  | _, _ => None
  end.

Definition provideInlineCompletions
    (model : ITextModel) (monacoPosition : MonacoPosition)
    (token : CancellationToken) : M (option InlineCompletions) :=
  let document := Document_new model in
  let position := Position_fromMonaco monacoPosition in
  onCancellationRequested token InvokeCancellationCallback;;
  onCancellationRequested token AbortTheRequest;;
  let signal := {| abortedBy := token |} in
  setStatus PROCESSING;;
  setMessage "Generating completions...";;
  documentInfo ← getDocumentInfo document position;
  let editorOptions :=
    {| eo_tabSize := BigInt (tabSize (getOptions model));
       eo_insertSpaces := insertSpaces (getOptions model) |} in
  includedOtherDocs ← gets (fun w => this_otherDocuments (this w));
  includedOtherDocs_length ← array_length includedOtherDocs;
  includedOtherDocs ←
    (if 10 <? includedOtherDocs_length
     then console_warn ("Too many other documents: "
                        +:+ pretty includedOtherDocs_length +:+ " (max 10)");;
          array_slice includedOtherDocs 0 10
     else mret includedOtherDocs);
  getCompletionsResponse ←
    try_catch
      (metadata ← getMetadata;
       threshold ← gets (fun w => multilineModelThreshold (this w));
       headers ← getAuthHeader;
       response ←
         await_getCompletions
           {| metadata := metadata;
              document := documentInfo;
              editorOptions := editorOptions;
              otherDocuments := includedOtherDocs;
              multilineConfig :=
                match threshold with
                | Some t =>
                    if number_truthy t then Some {| threshold := t |}
                    else None
                | None => None
                end |}
           {| signal := signal; headers := headers |};
       mret (Some response))
      (fun err =>
         (if isCanceled err then mret tt
          else setStatus ERROR;;
               setMessage "Something went wrong; please try again.");;
         mret None);
  match getCompletionsResponse with
  | None => mret None
  | Some getCompletionsResponse =>
      match completionItems getCompletionsResponse with
      | None =>
          let message := " No completions were generated" in
          setStatus SUCCESS;;
          setMessage message;;
          mret None
      | Some completionItems =>
          let inlineCompletionItems :=
            List.filter object_truthy
              (map (fun completionItem =>
                      createInlineCompletionItem completionItem document)
                   completionItems) in
          setStatus SUCCESS;;
          let count := N.of_nat (length inlineCompletionItems) in
          let message := "Generated " +:+ pretty count +:+ " completions" in
          let message :=
            if count =? 1 then "Generated 1 completion" else message in
          setMessage message;;
          mret (Some {| items := inlineCompletionItems |})
      end
  end.

End MonacoCompletionProvider.

(** ** Reading a trace of effects *)

Definition isCall (e : Event) : bool :=
  match e with EGetCompletions _ _ _ => true | _ => false end.

Definition isSettlement (e : Event) : bool :=
  match e with ESettled _ => true | _ => false end.

(** The effects that precede the first network call. *)
Fixpoint beforeCall (es : list Event) : list Event :=
  match es with
  | [] => []
  | e :: es' => if isCall e then [] else e :: beforeCall es'
  end.

(** The effects that follow the first settlement of a call. *)
Fixpoint afterSettled (es : list Event) : list Event :=
  match es with
  | [] => []
  | e :: es' => if isSettlement e then es' else afterSettled es'
  end.

(** The statuses, the messages and the warnings reported, in order. *)
Definition statusesOf (es : list Event) : list Status :=
  omap (fun e => match e with ESetStatus s => Some s | _ => None end) es.

Definition messagesOf (es : list Event) : list string :=
  omap (fun e => match e with ESetMessage m => Some m | _ => None end) es.

Definition warningsOf (es : list Event) : list string :=
  omap (fun e => match e with EConsoleWarn m => Some m | _ => None end) es.

(** The requests issued, each with the auxiliary documents it carried. *)
Definition requestsOf (es : list Event)
  : list (GetCompletionsRequest * list DocumentInfo) :=
  omap (fun e => match e with
                 | EGetCompletions r docs _ => Some (r, docs)
                 | _ => None
                 end) es.

Definition isTerminal (s : Status) : bool :=
  match s with SUCCESS | ERROR => true | IDLE | PROCESSING => false end.

(** ** A concrete editor, for running the provider on examples *)

Module Demo.

Definition imports : Imports :=
  {| Document_new := fun model =>
       {| getText := getValue model;
          languageId := getLanguageId model;
          offsetAt := fun p => character p;
          positionAt := fun o => {| line := 0; character := o |} |};
     Position_fromMonaco := fun p =>
       {| line := lineNumber p - 1; character := column p - 1 |};
     languageIdToEnum := fun l => if String.eqb l "typescript" then 45 else 0;
     getCurrentURL := Some "http://localhost/";
     getPackageVersion := None;
     uuid := "0000" |}.

(** A one-line model holding [let x] . *)
Definition model : ITextModel :=
  {| getValue := [108; 101; 116; 32; 120];
     getLanguageId := "typescript";
     getOffsetAt := fun p => column p - 1;
     getPositionAt := fun o => {| lineNumber := 1; column := o + 1 |};
     getOptions := {| tabSize := 2; insertSpaces := true |} |}.

Definition cursor : MonacoPosition := {| lineNumber := 1; column := 6 |}.
Definition token : CancellationToken := {| tokenId := 7 |}.

Definition doc (n : N) : DocumentInfo :=
  {| text := [n]; editorLanguage := "plaintext"; language := 0;
     cursorOffset := 0; lineEnding := String (Ascii.ascii_of_nat 10) EmptyString |}.

Definition docs (n : nat) : list DocumentInfo :=
  map (fun i => doc (N.of_nat i)) (seq 0 n).

Definition goodItem (name : string) : CompletionItem :=
  {| completion := Some {| completionId := name; completion_text := " = 1" |};
     range := Some {| startOffset := 5; endOffset := 5 |} |}.

Definition noRange (name : string) : CompletionItem :=
  {| completion := Some {| completionId := name; completion_text := " = 2" |};
     range := None |}.

Definition noCompletion : CompletionItem :=
  {| completion := None;
     range := Some {| startOffset := 0; endOffset := 5 |} |}.

(** A provider whose client settles every call the same way, whose
    [otherDocuments] array holds [n] documents. *)
Definition provider (outcome : Settled) (threshold : option spec_float)
    (n : nat) : World :=
  let w := @new_MonacoCompletionProvider imports
             (fun _ _ _ => outcome) None threshold in
  {| this := this w;
     arrays := <[this_otherDocuments (this w) := docs n]> (arrays w) |}.

Definition run (outcome : Settled) (threshold : option spec_float) (n : nat)
  : Outcome (option InlineCompletions) :=
  @provideInlineCompletions imports model cursor token
    (provider outcome threshold n).

End Demo.

(** ** Acceptance reporting *)

(** The request and the options of [client.acceptCompletion]. *)
Record AcceptCompletionRequest := {
  ac_metadata : Metadata;
  ac_completionId : string;
}.
Record AcceptCallOptions := { ac_headers : Headers }.

(** How the promise of [acceptCompletion] settles; its response is passed
    to [resolve] and read by nobody. *)
Inductive AcceptSettled :=
| AcceptFulfilled
| AcceptRejected (err : JsError).

(** The second method of the client object. *)
Definition AcceptCompletionClient :=
  AcceptCompletionRequest -> AcceptCallOptions -> AcceptSettled.

(** What an acknowledgment does: the call, then either [resolve] of the
    promise made around it or [console.log('Error: ', err)]. *)
Inductive AckEvent :=
| EAcceptCompletion (request : AcceptCompletionRequest)
                    (options : AcceptCallOptions)
| EResolve
| EConsoleLog (label : string) (err : JsError).

(** [acceptedLastCompletion] returns nothing to its caller; the model
    gives the state it leaves and the effects of the call it starts. *)
Record AckOutcome := {
  ack_world : World;
  ack_effects : list AckEvent;
}.

Section AcceptanceReporting.
Context `{Imports}.

(** The executor of the promise runs at once: it evaluates the two
    arguments, issues the call and attaches [then(resolve)] and the
    [catch] that logs.  An error thrown while the arguments are evaluated
    would reject the promise, which nobody observes. *)
Definition acceptedLastCompletion
    (acceptCompletion : AcceptCompletionClient) (completionId : string)
    (w : World) : AckOutcome :=
  let executor : M (list AckEvent) :=
    metadata ← getMetadata;
    headers ← getAuthHeader;
    let request :=
      {| ac_metadata := metadata; ac_completionId := completionId |} in
    let options := {| ac_headers := headers |} in
    mret (EAcceptCompletion request options
          :: match acceptCompletion request options with
             | AcceptFulfilled => [EResolve]
             | AcceptRejected err => [EConsoleLog "Error: " err]
             end) in
  match executor w with
  | {| result := inr events; world := w1; effects := _ |} =>
      {| ack_world := w1; ack_effects := events |}
  | {| result := inl _; world := w1; effects := _ |} =>
      {| ack_world := w1; ack_effects := [] |}
  end.

End AcceptanceReporting.

(** ** More readings of a trace *)

(** The calls issued, each with its options. *)
Definition callsOf (es : list Event)
  : list (GetCompletionsRequest * CallOptions) :=
  omap (fun e => match e with
                 | EGetCompletions r _ options => Some (r, options)
                 | _ => None
                 end) es.

(** The reports to the embedder: statuses and messages. *)
Definition isReport (e : Event) : bool :=
  match e with ESetStatus _ | ESetMessage _ => true | _ => false end.

(** The acknowledgments sent. *)
Definition acksOf (es : list AckEvent)
  : list (AcceptCompletionRequest * AcceptCallOptions) :=
  omap (fun e => match e with
                 | EAcceptCompletion r options => Some (r, options)
                 | _ => None
                 end) es.

(** What the display of a returned item and its acceptance command carry:
    the text to insert and the arguments of the command. *)
Definition shown (item : MonacoInlineCompletion) : string * list string :=
  (insertText item, arguments (command item)).

(** * Properties *)

(** ** The array store *)

Lemma deref_alloc_eq t (m : gmap loc (list DocumentInfo)) a v :
  deref {| this := t; arrays := <[a := v]> m |} a = v.
Proof. unfold deref; cbn. by rewrite lookup_insert_eq. Qed.

Lemma deref_alloc_ne t (m : gmap loc (list DocumentInfo)) a a' v :
  a <> a' ->
  deref {| this := t; arrays := <[a' := v]> m |} a
  = deref {| this := t; arrays := m |} a.
Proof. intros Hne. unfold deref; cbn. by rewrite lookup_insert_ne. Qed.

(** A reference that reads as a non-empty array is allocated, so a fresh
    reference differs from it. *)
Lemma nonempty_not_fresh w a :
  deref w a <> [] -> a <> fresh (dom (arrays w)).
Proof.
  unfold deref. intros Hne ->.
  destruct (arrays w !! fresh (dom (arrays w))) as [v|] eqn:Hlook.
  - apply (is_fresh (dom (arrays w))). apply elem_of_dom. eauto.
  - by apply Hne.
Qed.

Lemma long_nonempty (docs : list DocumentInfo) :
  (10 <? N.of_nat (length docs)) = true -> docs <> [].
Proof. intros Hlt ->. cbn in Hlt. discriminate. Qed.

Lemma slice_0_take {A : Type} (a : list A) (n : N) :
  slice a 0 n = take (N.to_nat n) a.
Proof. unfold slice. by rewrite N.sub_0_r. Qed.

(** ** Running the provider *)

(** One step of symbolic execution of the monadic code. *)
Ltac step_M :=
  cbv beta iota zeta delta
    [provideInlineCompletions getDocumentInfo getAuthHeader getMetadata
     array_length array_slice await_getCompletions try_catch setStatus
     setMessage console_warn onCancellationRequested emit gets mbind mret
     M_bind M_ret result world effects app];
  cbn [this otherDocuments multilineConfig].

(** Execute [provideInlineCompletions] along each of its paths: known or
    unknown language, more than 10 auxiliary documents or not, and the
    four ways the call can end. *)
Ltac run_provider :=
  step_M;
  destruct (_ =? Language_UNSPECIFIED); step_M;
  (destruct (10 <? _) eqn:Hlen); step_M;
  (destruct (client _ _ _ _) as [response'|err'] eqn:Hclient); step_M;
  first [ destruct (completionItems response') as [items'|] eqn:Hitems
        | destruct (isCanceled err') eqn:Hcanceled ];
  step_M.

(** Find the settlement of the call in an executed trace. *)
Ltac find_settlement H :=
  cbn in H;
  repeat match type of H with
         | _ \/ _ => destruct H as [H|H]; [try discriminate H|]
         | False => destruct H
         end;
  injection H as H; try subst.

(** C2: when the call is rejected with [ConnectError] of code [Canceled],
    the provider returns [undefined] without throwing, reports nothing
    after the rejection, and the only status of the whole run is the
    [PROCESSING] reported before the call; [ERROR] is not reported. *)
Theorem cancellation_is_silent `{Imports} model monacoPosition token w err :
  let o := provideInlineCompletions model monacoPosition token w in
  In (ESettled (Rejected err)) (effects o) ->
  isCanceled err = true ->
  result o = inr None
  /\ afterSettled (effects o) = []
  /\ statusesOf (effects o) = [PROCESSING]
  /\ ~ In (ESetStatus ERROR) (effects o).
Proof.
  intros o Hin Hc. subst o. revert Hin. run_provider.
  all: intros Hin; find_settlement Hin; try congruence.
  all: repeat split; try reflexivity.
  all: cbn; intuition discriminate.
Qed.

Lemma cancellation_is_silent_witness :
  let o := Demo.run (Rejected (ConnectError Canceled "aborted")) None 3 in
  In (ESettled (Rejected (ConnectError Canceled "aborted"))) (effects o)
  /\ result o = inr None
  /\ afterSettled (effects o) = []
  /\ statusesOf (effects o) = [PROCESSING]
  /\ ~ In (ESetStatus ERROR) (effects o).
Proof.
  assert (Hin : In (ESettled (Rejected (ConnectError Canceled "aborted")))
                   (effects (Demo.run (Rejected (ConnectError Canceled "aborted"))
                                      None 3))).
  { vm_compute. tauto. }
  split; [exact Hin|].
  exact (@cancellation_is_silent Demo.imports Demo.model Demo.cursor
           Demo.token _ _ Hin eq_refl).
Defined.

(** C5: when the call is rejected for any reason other than cancellation,
    the provider reports [ERROR] and then the fixed message
    "Something went wrong; please try again.", and returns [undefined]
    without throwing; neither the result nor what is reported depends on
    the error. *)
Theorem failure_reports_generic_error
    `{Imports} model monacoPosition token w err :
  let o := provideInlineCompletions model monacoPosition token w in
  In (ESettled (Rejected err)) (effects o) ->
  isCanceled err = false ->
  result o = inr None
  /\ afterSettled (effects o)
     = [ESetStatus ERROR;
        ESetMessage "Something went wrong; please try again."]
  /\ statusesOf (effects o) = [PROCESSING; ERROR]
  /\ warningsOf (afterSettled (effects o)) = [].
Proof.
  intros o Hin Hc. subst o. revert Hin. run_provider.
  all: intros Hin; find_settlement Hin; try congruence.
  all: repeat split; reflexivity.
Qed.

Lemma failure_reports_generic_error_witness :
  let o := Demo.run (Rejected (OtherError "TypeError: Failed to fetch"))
                    None 3 in
  In (ESettled (Rejected (OtherError "TypeError: Failed to fetch")))
     (effects o)
  /\ result o = inr None
  /\ afterSettled (effects o)
     = [ESetStatus ERROR;
        ESetMessage "Something went wrong; please try again."]
  /\ statusesOf (effects o) = [PROCESSING; ERROR]
  /\ warningsOf (afterSettled (effects o)) = [].
Proof.
  assert (Hin : In (ESettled (Rejected (OtherError "TypeError: Failed to fetch")))
                   (effects (Demo.run
                               (Rejected (OtherError "TypeError: Failed to fetch"))
                               None 3))).
  { vm_compute. tauto. }
  split; [exact Hin|].
  exact (@failure_reports_generic_error Demo.imports Demo.model Demo.cursor
           Demo.token _ _ Hin eq_refl).
Defined.

(** ** Mapping the response *)

Section Mapping.
Context `{Imports}.

(** An item is rejected exactly when its completion or its range is
    absent. *)
Lemma createInlineCompletionItem_None completionItem document :
  createInlineCompletionItem completionItem document = None
  <-> completion completionItem = None \/ range completionItem = None.
Proof.
  unfold createInlineCompletionItem.
  destruct (completion completionItem), (range completionItem);
    split; intros Hx; try discriminate; try tauto;
    destruct Hx; discriminate.
Qed.

Lemma createInlineCompletionItem_truthy completionItem document :
  object_truthy (createInlineCompletionItem completionItem document)
  = object_truthy (completion completionItem)
    && object_truthy (range completionItem).
Proof.
  unfold createInlineCompletionItem.
  by destruct (completion completionItem), (range completionItem).
Qed.

(** [map] followed by [filter (item => !!item)] keeps the defined images,
    in order. *)
Lemma filter_truthy_map {A B : Type} (f : A -> option B) (l : list A) :
  List.filter object_truthy (map f l) = map Some (omap f l).
Proof.
  induction l as [|x l IH]; [reflexivity|].
  cbn. destruct (f x); cbn; by rewrite IH.
Qed.

Lemma length_omap_filter {A B : Type} (f : A -> option B) (l : list A) :
  length (omap f l)
  = length (List.filter (fun x => object_truthy (f x)) l).
Proof.
  induction l as [|x l IH]; [reflexivity|].
  cbn. destruct (f x); cbn; by rewrite IH.
Qed.

End Mapping.

(** C4, as the code has it: on a response that carries an item
    collection, an item is rejected and dropped exactly when its
    [completion] sub-message or its [range] is absent.  Every other item,
    also one whose completion holds an empty text, is mapped and returned,
    in order: its insert text and its text are the completion's text, its
    range runs between the editor positions of the two byte offsets
    translated to code units, and its command carries the completion id
    and the text.  The call itself does not fail. *)
Theorem items_without_completion_or_range_are_dropped
    `{Imports} model monacoPosition token w response cis :
  let o := provideInlineCompletions model monacoPosition token w in
  let doc := Document_new model in
  let translate := fun offset : N =>
    positionAt doc
      (utf.utf8BytesToCodeUnits (getText doc) (Number_of_bigint offset)) in
  let mapped := fun ci : CompletionItem =>
    match completion ci, range ci with
    | Some c, Some r =>
        Some {| insertText := completion_text c;
                mic_text := completion_text c;
                mic_range := {| start := translate (startOffset r);
                                end_ := translate (endOffset r) |};
                command := {| id := "codeium.acceptCompletion";
                              title := "Accept Completion";
                              arguments := [completionId c;
                                            completion_text c] |} |}
    | _, _ => None
    end in
  In (ESettled (Fulfilled response)) (effects o) ->
  completionItems response = Some cis ->
  result o = inr (Some {| items := map Some (omap mapped cis) |})
  /\ (forall ci, createInlineCompletionItem ci doc = mapped ci)
  /\ (forall ci, mapped ci = None
                 <-> completion ci = None \/ range ci = None)
  /\ length (omap mapped cis)
     = length (List.filter
                 (fun ci => object_truthy (completion ci)
                            && object_truthy (range ci)) cis).
Proof.
  intros o doc translate mapped Hin Hcis.
  assert (Hmapped : forall ci, createInlineCompletionItem ci doc = mapped ci).
  { intros ci. unfold createInlineCompletionItem, mapped.
    by destruct (completion ci), (range ci). }
  split; [|split; [exact Hmapped|split]].
  - subst o. revert Hin. run_provider.
    all: intros Hin; find_settlement Hin; try congruence.
    all: rewrite Hcis in Hitems; injection Hitems as <-.
    all: rewrite filter_truthy_map; reflexivity.
  - intros ci. rewrite <- Hmapped. apply createInlineCompletionItem_None.
  - rewrite length_omap_filter. clear Hin Hcis.
    induction cis as [|ci l IH]; [reflexivity|].
    cbn [List.filter]. rewrite <- Hmapped, createInlineCompletionItem_truthy.
    destruct (_ && _); cbn [length]; by rewrite IH.
Qed.

Lemma items_without_completion_or_range_are_dropped_witness :
  let kept :=
    {| completion := Some {| completionId := "a"; completion_text := " = 1" |};
       range := Some {| startOffset := 3; endOffset := 5 |} |} in
  let cis := [kept; Demo.noRange "b"] in
  let o := Demo.run (Fulfilled {| completionItems := Some cis |}) None 3 in
  In (ESettled (Fulfilled {| completionItems := Some cis |})) (effects o)
  /\ result o
     = inr (Some {| items :=
              [Some {| insertText := " = 1";
                       mic_text := " = 1";
                       mic_range :=
                         {| start := {| line := 0; character := 3 |};
                            end_ := {| line := 0; character := 5 |} |};
                       command :=
                         {| id := "codeium.acceptCompletion";
                            title := "Accept Completion";
                            arguments := ["a"; " = 1"] |} |}] |}).
Proof.
  intros kept cis o.
  assert (Hin : In (ESettled (Fulfilled {| completionItems := Some cis |}))
                   (effects o)).
  { vm_compute. tauto. }
  split; [exact Hin|].
  destruct (@items_without_completion_or_range_are_dropped Demo.imports
              Demo.model Demo.cursor Demo.token _ _ cis Hin eq_refl)
    as [Hresult _].
  subst o. unfold Demo.run. rewrite Hresult. reflexivity.
Defined.

(** An item whose completion is present but holds no text is not
    rejected: it is returned with an empty insert text and counted in the
    message. *)
Lemma item_with_empty_text_is_kept :
  let ci :=
    {| completion :=
         Some {| completionId := "x"; completion_text := EmptyString |};
       range := Some {| startOffset := 0; endOffset := 5 |} |} in
  let o := Demo.run (Fulfilled {| completionItems := Some [ci] |}) None 0 in
  createInlineCompletionItem ci (@Document_new Demo.imports Demo.model)
  <> None
  /\ (exists item,
        result o = inr (Some {| items := [Some item] |})
        /\ insertText item = EmptyString)
  /\ messagesOf (afterSettled (effects o)) = ["Generated 1 completion"].
Proof.
  intros ci o. split; [discriminate|]. split.
  - eexists. split; reflexivity.
  - reflexivity.
Qed.

(** C6: on a response that carries an item collection, the message
    reported with [SUCCESS] counts the items that are returned: it is
    "Generated 1 completion" for exactly one item, and
    "Generated k completions" for any other number k of items. *)
Theorem success_message_wording
    `{Imports} model monacoPosition token w response cis :
  let o := provideInlineCompletions model monacoPosition token w in
  In (ESettled (Fulfilled response)) (effects o) ->
  completionItems response = Some cis ->
  exists returned message,
    result o = inr (Some {| items := returned |})
    /\ afterSettled (effects o) = [ESetStatus SUCCESS; ESetMessage message]
    /\ (length returned = 1%nat -> message = "Generated 1 completion")
    /\ (length returned <> 1%nat ->
        message = "Generated " +:+ pretty (N.of_nat (length returned))
                  +:+ " completions").
Proof.
  intros o Hin Hcis. subst o. revert Hin. run_provider.
  all: intros Hin; find_settlement Hin; try congruence.
  all: do 2 eexists; split; [reflexivity|]; split; [reflexivity|].
  all: destruct (N.eqb_spec (N.of_nat (length (List.filter object_truthy
         (map (fun ci => createInlineCompletionItem ci (Document_new model))
              items')))) 1) as [Heq|Hne].
  all: split; intros Hlen'; try reflexivity; lia.
Qed.

Lemma success_message_wording_witness :
  let two := {| completionItems :=
                  Some [Demo.goodItem "a"; Demo.noCompletion;
                        Demo.goodItem "b"] |} in
  let one := {| completionItems :=
                  Some [Demo.goodItem "a"; Demo.noRange "b"] |} in
  messagesOf (afterSettled (effects (Demo.run (Fulfilled two) None 0)))
  = ["Generated 2 completions"]
  /\ messagesOf (afterSettled (effects (Demo.run (Fulfilled one) None 0)))
     = ["Generated 1 completion"].
Proof.
  intros two one. split.
  - assert (Hin : In (ESettled (Fulfilled two))
                     (effects (Demo.run (Fulfilled two) None 0))).
    { vm_compute. tauto. }
    destruct (@success_message_wording Demo.imports Demo.model Demo.cursor
                Demo.token _ _ _ Hin eq_refl)
      as (returned & message & Hresult & Hafter & _ & Hplural).
    vm_compute in Hresult. injection Hresult as Hreturned. subst returned.
    unfold Demo.run. rewrite Hafter, Hplural by (vm_compute; discriminate).
    reflexivity.
  - assert (Hin : In (ESettled (Fulfilled one))
                     (effects (Demo.run (Fulfilled one) None 0))).
    { vm_compute. tauto. }
    destruct (@success_message_wording Demo.imports Demo.model Demo.cursor
                Demo.token _ _ _ Hin eq_refl)
      as (returned & message & Hresult & Hafter & Hsingular & _).
    vm_compute in Hresult. injection Hresult as Hreturned. subst returned.
    unfold Demo.run. rewrite Hafter, Hsingular by reflexivity.
    reflexivity.
Defined.

(** C1: what the provider does on a response without items.  When the
    collection is absent it reports [SUCCESS] with
    " No completions were generated" and returns [undefined].  When the
    collection is an empty array the test [!completionItems] is false: the
    provider reports [SUCCESS] with "Generated 0 completions" and returns
    an object with an empty list of items. *)
Theorem response_without_items
    `{Imports} model monacoPosition token w response :
  let o := provideInlineCompletions model monacoPosition token w in
  In (ESettled (Fulfilled response)) (effects o) ->
  (completionItems response = None ->
   result o = inr None
   /\ afterSettled (effects o)
      = [ESetStatus SUCCESS; ESetMessage " No completions were generated"])
  /\ (completionItems response = Some [] ->
      result o = inr (Some {| items := [] |})
      /\ afterSettled (effects o)
         = [ESetStatus SUCCESS; ESetMessage "Generated 0 completions"]).
Proof.
  intros o Hin. subst o. revert Hin. run_provider.
  all: intros Hin; find_settlement Hin.
  all: split; intros Hcis; rewrite Hcis in Hitems; try discriminate Hitems.
  all: try (injection Hitems as <-); split; reflexivity.
Qed.

Lemma response_without_items_witness :
  let o := Demo.run (Fulfilled {| completionItems := Some [] |}) None 0 in
  In (ESettled (Fulfilled {| completionItems := Some [] |})) (effects o)
  /\ result o = inr (Some {| items := [] |})
  /\ afterSettled (effects o)
     = [ESetStatus SUCCESS; ESetMessage "Generated 0 completions"].
Proof.
  intros o.
  assert (Hin : In (ESettled (Fulfilled {| completionItems := Some [] |}))
                   (effects o)).
  { vm_compute. tauto. }
  split; [exact Hin|].
  exact (proj2 (@response_without_items Demo.imports Demo.model Demo.cursor
                  Demo.token _ _ Hin) eq_refl).
Defined.

(** ** The request *)

Lemma short_take (docs : list DocumentInfo) :
  (10 <? N.of_nat (length docs)) = false -> take 10 docs = docs.
Proof. intros Hle%N.ltb_ge. apply take_ge. lia. Qed.

(** C3: the request carries the first 10 auxiliary documents of the
    provider's list in their order (all of them when there are at most
    10), so never more than 10; no error is raised; and when more than 10
    were supplied a warning is written before the call. *)
Theorem auxiliary_documents_are_capped
    `{Imports} model monacoPosition token w :
  let o := provideInlineCompletions model monacoPosition token w in
  let docs := deref w (this_otherDocuments (this w)) in
  exists request sent,
    requestsOf (effects o) = [(request, sent)]
    /\ sent = take 10 docs
    /\ (length sent <= 10)%nat
    /\ (exists r, result o = inr r)
    /\ ((10 < length docs)%nat ->
        In ("Too many other documents: "
            +:+ pretty (N.of_nat (length docs)) +:+ " (max 10)")
           (warningsOf (beforeCall (effects o)))).
Proof.
  intros o docs. subst o docs. run_provider.
  all: rewrite ?deref_alloc_eq, ?slice_0_take.
  all: do 2 eexists; split; [reflexivity|].
  all: change (N.to_nat 10) with 10%nat.
  all: split; [first [reflexivity | by rewrite short_take]|].
  all: split; [first [rewrite length_take; lia | apply N.ltb_ge in Hlen; lia]|].
  all: split; [eexists; reflexivity|].
  all: intros Hlong; cbn; try tauto.
  all: apply N.ltb_ge in Hlen; lia.
Qed.

Lemma auxiliary_documents_are_capped_witness :
  let w := Demo.provider (Fulfilled {| completionItems := None |}) None 15 in
  let o := Demo.run (Fulfilled {| completionItems := None |}) None 15 in
  (10 < length (deref w (this_otherDocuments (this w))))%nat
  /\ map snd (requestsOf (effects o)) = [Demo.docs 10]
  /\ In "Too many other documents: 15 (max 10)"
        (warningsOf (beforeCall (effects o))).
Proof.
  intros w o.
  assert (Hlong : (10 < length (deref w (this_otherDocuments (this w))))%nat).
  { vm_compute. lia. }
  destruct (@auxiliary_documents_are_capped Demo.imports Demo.model
              Demo.cursor Demo.token w)
    as (request & sent & Hrequests & Hsent & _ & _ & Hwarn).
  split; [exact Hlong|]. split.
  - subst o. unfold Demo.run. fold w. rewrite Hrequests, Hsent. reflexivity.
  - exact (Hwarn Hlong).
Defined.

(** The conditional expression that fills [multilineConfig], by cases on
    the threshold. *)
Lemma multilineConfig_cases (threshold0 : option spec_float) :
  let config :=
    match threshold0 with
    | Some t => if number_truthy t then Some {| threshold := t |} else None
    | None => None
    end in
  (is_Some config
   <-> exists t, threshold0 = Some t /\ number_truthy t = true)
  /\ (threshold0 = None -> config = None)
  /\ (forall s, threshold0 = Some (S754_zero s) -> config = None)
  /\ (forall t, threshold0 = Some t ->
                t <> S754_nan -> (forall s, t <> S754_zero s) ->
                config = Some {| threshold := t |}).
Proof.
  intros config. subst config. split; [|split; [|split]].
  - split.
    + destruct threshold0 as [t|]; [|by intros [x Hx]].
      destruct (number_truthy t) eqn:Htruthy; [|by intros [x Hx]].
      intros _. by exists t.
    + intros (t & -> & ->). by eexists.
  - by intros ->.
  - by intros s ->.
  - intros t -> Hnan Hzero.
    destruct t as [s| | |]; try reflexivity;
      [by destruct (Hzero s) | by destruct Hnan].
Qed.

(** C10: the request has a multiline configuration exactly when the
    provider's [multilineModelThreshold] is truthy: none when the threshold
    is [undefined] or zero, and one holding the threshold itself when the
    threshold is a number other than zero ([NaN], which is no number, is
    falsy as well). *)
Theorem multilineConfig_iff_truthy_threshold
    `{Imports} model monacoPosition token w :
  let o := provideInlineCompletions model monacoPosition token w in
  exists request sent,
    requestsOf (effects o) = [(request, sent)]
    /\ (is_Some (multilineConfig request)
        <-> exists t, multilineModelThreshold (this w) = Some t
                      /\ number_truthy t = true)
    /\ (multilineModelThreshold (this w) = None ->
        multilineConfig request = None)
    /\ (forall s, multilineModelThreshold (this w) = Some (S754_zero s) ->
                  multilineConfig request = None)
    /\ (forall t, multilineModelThreshold (this w) = Some t ->
                  t <> S754_nan -> (forall s, t <> S754_zero s) ->
                  multilineConfig request = Some {| threshold := t |}).
Proof.
  intros o. subst o. run_provider.
  all: do 2 eexists; split; [reflexivity|]; cbn [multilineConfig].
  all: apply multilineConfig_cases.
Qed.

Lemma multilineConfig_iff_truthy_threshold_witness :
  let half := S754_finite false 1 (-1) in
  let o := Demo.run (Rejected (OtherError "offline")) (Some half) 0 in
  half <> S754_nan
  /\ (forall s, half <> S754_zero s)
  /\ map (fun r => multilineConfig (fst r)) (requestsOf (effects o))
     = [Some {| threshold := half |}].
Proof.
  intros half o.
  destruct (@multilineConfig_iff_truthy_threshold Demo.imports Demo.model
              Demo.cursor Demo.token
              (Demo.provider (Rejected (OtherError "offline")) (Some half) 0))
    as (request & sent & Hrequests & _ & _ & _ & Hset).
  assert (Hnan : half <> S754_nan) by discriminate.
  assert (Hzero : forall s, half <> S754_zero s) by (intros s; discriminate).
  split; [exact Hnan|]. split; [exact Hzero|].
  subst o. unfold Demo.run. rewrite Hrequests. cbn [map fst].
  rewrite (Hset half eq_refl Hnan Hzero). reflexivity.
Defined.

(** ** Order of the effects *)

(** C8: every run issues exactly one call.  Before it, [PROCESSING] and the
    message "Generating completions..." are reported and nothing else is
    reported as a status; every further status of the run, so every
    [SUCCESS] and [ERROR], comes after the settlement of the call. *)
Theorem processing_precedes_call `{Imports} model monacoPosition token w :
  let o := provideInlineCompletions model monacoPosition token w in
  exists request sent options outcome,
    effects o
    = beforeCall (effects o)
      ++ [EGetCompletions request sent options; ESettled outcome]
      ++ afterSettled (effects o)
    /\ statusesOf (beforeCall (effects o)) = [PROCESSING]
    /\ messagesOf (beforeCall (effects o)) = ["Generating completions..."]
    /\ List.filter isTerminal (statusesOf (beforeCall (effects o))) = []
    /\ statusesOf (effects o)
       = PROCESSING :: statusesOf (afterSettled (effects o))
    /\ requestsOf (afterSettled (effects o)) = [].
Proof.
  intros o. subst o. run_provider.
  all: do 4 eexists; repeat split; reflexivity.
Qed.

(** ** Frame *)

Lemma deref_eta w a :
  deref {| this := this w; arrays := arrays w |} a = deref w a.
Proof. by destruct w. Qed.

Lemma alloc_fresh_subseteq (m : gmap loc (list DocumentInfo)) v :
  m ⊆ <[fresh (dom m) := v]> m.
Proof.
  apply insert_subseteq, not_elem_of_dom, is_fresh.
Qed.

(** C9: a call leaves the provider object as it was, its [otherDocuments]
    field refers to the same array with the same elements in the same
    order, and every array of the store is unchanged; when more than 10
    documents are supplied the request carries another array than the
    provider's. *)
Theorem otherDocuments_is_not_mutated
    `{Imports} model monacoPosition token w :
  let o := provideInlineCompletions model monacoPosition token w in
  let docs := deref w (this_otherDocuments (this w)) in
  this (world o) = this w
  /\ deref (world o) (this_otherDocuments (this (world o))) = docs
  /\ arrays w ⊆ arrays (world o)
  /\ exists request sent,
       requestsOf (effects o) = [(request, sent)]
       /\ ((10 < length docs)%nat ->
           otherDocuments request <> this_otherDocuments (this w)).
Proof.
  intros o docs. subst o docs. run_provider.
  all: split; [reflexivity|]; cbn [this arrays].
  all: split;
    [ first [ reflexivity
            | rewrite deref_alloc_ne, deref_eta;
              [reflexivity | by apply nonempty_not_fresh, long_nonempty] ]
    | ].
  all: split; [first [reflexivity | apply alloc_fresh_subseteq]|].
  all: do 2 eexists; split; [reflexivity|]; cbn [otherDocuments].
  all: intros Hlong.
  all: first [ by apply not_eq_sym, nonempty_not_fresh, long_nonempty
             | apply N.ltb_ge in Hlen; lia ].
Qed.

Lemma otherDocuments_is_not_mutated_witness :
  let w := Demo.provider (Fulfilled {| completionItems := Some [] |}) None 15 in
  let o := Demo.run (Fulfilled {| completionItems := Some [] |}) None 15 in
  (10 < length (deref w (this_otherDocuments (this w))))%nat
  /\ deref (world o) (this_otherDocuments (this (world o))) = Demo.docs 15
  /\ map (fun r => otherDocuments (fst r)) (requestsOf (effects o))
     <> [this_otherDocuments (this w)].
Proof.
  intros w o.
  assert (Hlong : (10 < length (deref w (this_otherDocuments (this w))))%nat).
  { vm_compute. lia. }
  destruct (@otherDocuments_is_not_mutated Demo.imports Demo.model
              Demo.cursor Demo.token w)
    as (_ & Hsame & _ & request & sent & Hrequests & Hcopy).
  split; [exact Hlong|]. split.
  - subst o. unfold Demo.run. fold w. rewrite Hsame. reflexivity.
  - subst o. unfold Demo.run. fold w. rewrite Hrequests. cbn [map fst].
    intros [= Heq]. exact (Hcopy Hlong Heq).
Defined.

(** ** The offset translator *)

Section OffsetTranslator.
Import utf.

Lemma numUtf8BytesForCodePoint_pos cp : 1 <= numUtf8BytesForCodePoint cp.
Proof.
  unfold numUtf8BytesForCodePoint.
  repeat match goal with |- context [if ?b then _ else _] => destruct b end; lia.
Qed.

Lemma codeUnitAt_cons c rest k :
  0 < k -> codeUnitAt (c :: rest) k = codeUnitAt rest (k - 1).
Proof.
  intros Hk. unfold codeUnitAt.
  replace (N.to_nat k) with (S (N.to_nat (k - 1))) by lia. reflexivity.
Qed.

(** A boundary of the text is a boundary of its tail. *)
Lemma boundary_tail c rest k :
  0 < k ->
  isCodePointBoundary (c :: rest) k = true ->
  isCodePointBoundary rest (k - 1) = true.
Proof.
  unfold isCodePointBoundary. intros Hk [Hlen Hpair]%andb_true_iff.
  apply N.leb_le in Hlen. cbn [length] in Hlen.
  apply andb_true_iff. split; [apply N.leb_le; lia|].
  destruct (N.ltb_spec 0 (k - 1)) as [Hk1|Hk1]; [|reflexivity].
  rewrite (codeUnitAt_cons c rest (k - 1)) in Hpair by lia.
  rewrite (codeUnitAt_cons c rest k) in Hpair by lia.
  destruct (N.ltb_spec 0 k); [|lia]. exact Hpair.
Qed.

(** Offset 1 of a text that starts with a surrogate pair splits the pair. *)
Lemma boundary_splits_pair h l rest :
  isHighSurrogate h = true -> isLowSurrogate l = true ->
  isCodePointBoundary (h :: l :: rest) 1 = false.
Proof.
  intros Hh Hl. unfold isCodePointBoundary, codeUnitAt.
  change (N.to_nat (1 - 1)) with 0%nat. change (N.to_nat 1) with 1%nat.
  cbn [nth]. rewrite Hh, Hl. apply andb_false_r.
Qed.

Lemma boundary_nil k : isCodePointBoundary [] k = true -> k = 0.
Proof.
  unfold isCodePointBoundary. intros [Hlen _]%andb_true_iff.
  apply N.leb_le in Hlen. cbn in Hlen. lia.
Qed.

(** The two scans at a high surrogate that is not followed by a low one. *)
Lemma codeUnitsToUtf8Bytes_lone_high c l rest k :
  isHighSurrogate c = true -> isLowSurrogate l = false ->
  codeUnitsToUtf8Bytes (c :: l :: rest) k
  = if k =? 0 then 0 else 3 + codeUnitsToUtf8Bytes (l :: rest) (k - 1).
Proof.
  intros Hc Hl. cbn [codeUnitsToUtf8Bytes]. by rewrite Hc, Hl.
Qed.

Lemma utf8BytesToCodeUnits_lone_high c l rest b :
  isHighSurrogate c = true -> isLowSurrogate l = false ->
  utf8BytesToCodeUnits (c :: l :: rest) b
  = if b =? 0 then 0
    else if b <? 3 then 0
    else 1 + utf8BytesToCodeUnits (l :: rest) (b - 3).
Proof.
  intros Hc Hl. cbn [utf8BytesToCodeUnits]. by rewrite Hc, Hl.
Qed.

(** The decoder undoes one step of the encoder: a byte offset made of the
    cost of the first code point and a rest is past that code point. *)
Ltac past_code_point :=
  repeat match goal with
         | |- context [?b + ?e =? 0] =>
             destruct (N.eqb_spec (b + e) 0); [lia|]
         | |- context [?b + ?e <? ?b] =>
             destruct (N.ltb_spec (b + e) b); [lia|]
         | |- context [?b + ?e - ?b] =>
             replace (b + e - b) with e by lia
         end.

Lemma roundtrip_bounded (n : nat) :
  forall text offset,
    (length text <= n)%nat ->
    isCodePointBoundary text offset = true ->
    utf8BytesToCodeUnits text (codeUnitsToUtf8Bytes text offset) = offset.
Proof.
  induction n as [|n IH]; intros text offset Hn Hb.
  - destruct text; [|cbn in Hn; lia].
    apply boundary_nil in Hb. by subst.
  - destruct text as [|c rest]; [apply boundary_nil in Hb; by subst|].
    cbn [length] in Hn.
    destruct (N.eqb_spec offset 0) as [->|Hpos]; [reflexivity|].
    assert (Htail := boundary_tail c rest offset ltac:(lia) Hb).
    destruct (isHighSurrogate c) eqn:Hhigh.
    + destruct rest as [|l rest'].
      * apply boundary_nil in Htail.
        cbn [codeUnitsToUtf8Bytes utf8BytesToCodeUnits]. rewrite Hhigh.
        destruct (N.eqb_spec offset 0); [lia|]. cbn. lia.
      * destruct (isLowSurrogate l) eqn:Hlow.
        -- assert (offset <> 1).
           { intros ->. rewrite boundary_splits_pair in Hb by done. done. }
           assert (Htail2 := boundary_tail l rest' (offset - 1) ltac:(lia) Htail).
           replace (offset - 1 - 1) with (offset - 2) in Htail2 by lia.
           cbn [codeUnitsToUtf8Bytes utf8BytesToCodeUnits].
           rewrite Hhigh, Hlow.
           destruct (N.eqb_spec offset 0); [lia|].
           past_code_point.
           rewrite IH by (done || (cbn [length] in Hn; lia)). lia.
        -- rewrite codeUnitsToUtf8Bytes_lone_high by done.
           destruct (N.eqb_spec offset 0); [lia|].
           rewrite utf8BytesToCodeUnits_lone_high by done.
           past_code_point.
           rewrite IH by (done || lia). lia.
    + cbn [codeUnitsToUtf8Bytes utf8BytesToCodeUnits]. rewrite Hhigh. cbv zeta.
      destruct (N.eqb_spec offset 0); [lia|].
      pose proof (numUtf8BytesForCodePoint_pos c).
      past_code_point.
      rewrite IH by (done || lia). lia.
Qed.

Lemma utf8BytesToCodeUnits_ceil_lone_high c l rest b :
  isHighSurrogate c = true -> isLowSurrogate l = false ->
  utf8BytesToCodeUnits_ceil (c :: l :: rest) b
  = if b =? 0 then 0 else 1 + utf8BytesToCodeUnits_ceil (l :: rest) (b - 3).
Proof.
  intros Hc Hl. cbn [utf8BytesToCodeUnits_ceil]. by rewrite Hc, Hl.
Qed.

(** The round trip does not depend on how the inverse scan rounds inside a
    code point: the scan that rounds up returns the same offsets. *)
Lemma roundtrip_ceil_bounded (n : nat) :
  forall text offset,
    (length text <= n)%nat ->
    isCodePointBoundary text offset = true ->
    utf8BytesToCodeUnits_ceil text (codeUnitsToUtf8Bytes text offset)
    = offset.
Proof.
  induction n as [|n IH]; intros text offset Hn Hb.
  - destruct text; [|cbn in Hn; lia].
    apply boundary_nil in Hb. by subst.
  - destruct text as [|c rest]; [apply boundary_nil in Hb; by subst|].
    cbn [length] in Hn.
    destruct (N.eqb_spec offset 0) as [->|Hpos]; [reflexivity|].
    assert (Htail := boundary_tail c rest offset ltac:(lia) Hb).
    destruct (isHighSurrogate c) eqn:Hhigh.
    + destruct rest as [|l rest'].
      * apply boundary_nil in Htail.
        cbn [codeUnitsToUtf8Bytes utf8BytesToCodeUnits_ceil]. rewrite Hhigh.
        destruct (N.eqb_spec offset 0); [lia|]. cbn. lia.
      * destruct (isLowSurrogate l) eqn:Hlow.
        -- assert (offset <> 1).
           { intros ->. rewrite boundary_splits_pair in Hb by done. done. }
           assert (Htail2 := boundary_tail l rest' (offset - 1) ltac:(lia) Htail).
           replace (offset - 1 - 1) with (offset - 2) in Htail2 by lia.
           cbn [codeUnitsToUtf8Bytes utf8BytesToCodeUnits_ceil].
           rewrite Hhigh, Hlow.
           destruct (N.eqb_spec offset 0); [lia|].
           past_code_point.
           rewrite IH by (done || (cbn [length] in Hn; lia)). lia.
        -- rewrite codeUnitsToUtf8Bytes_lone_high by done.
           destruct (N.eqb_spec offset 0); [lia|].
           rewrite utf8BytesToCodeUnits_ceil_lone_high by done.
           past_code_point.
           rewrite IH by (done || lia). lia.
    + cbn [codeUnitsToUtf8Bytes utf8BytesToCodeUnits_ceil]. rewrite Hhigh.
      destruct (N.eqb_spec offset 0); [lia|].
      pose proof (numUtf8BytesForCodePoint_pos c).
      past_code_point.
      rewrite IH by (done || lia). lia.
Qed.

End OffsetTranslator.

Example utf_euro : utf.codeUnitsToUtf8Bytes [0x20AC] 1 = 3.
Proof. reflexivity. Qed.

Example utf_surrogate_pair :
  utf.codeUnitsToUtf8Bytes [0xD83D; 0xDE00] 2 = 4
  /\ utf.utf8BytesToCodeUnits [0xD83D; 0xDE00] 4 = 2
  /\ utf.utf8BytesToCodeUnits [0xD83D; 0xDE00] 2 = 0
  /\ utf.utf8BytesToCodeUnits_ceil [0xD83D; 0xDE00] 2 = 2
  /\ utf.isCodePointBoundary [0xD83D; 0xDE00] 1 = false.
Proof. repeat split; reflexivity. Qed.

(** An offset inside a surrogate pair does not survive the round trip. *)
Example utf_inside_pair :
  utf.utf8BytesToCodeUnits [0xD83D; 0xDE00]
    (utf.codeUnitsToUtf8Bytes [0xD83D; 0xDE00] 1) = 2.
Proof. reflexivity. Qed.

(** C7: for every text and every code-unit offset on a code-point
    boundary of the text, translating the offset to UTF-8 bytes and back
    gives the offset again. *)
Theorem utf_roundtrip (text : list N) (offset : N) :
  utf.isCodePointBoundary text offset = true ->
  utf.utf8BytesToCodeUnits text (utf.codeUnitsToUtf8Bytes text offset)
  = offset.
Proof. apply (roundtrip_bounded (length text)). lia. Qed.

Lemma utf_roundtrip_witness :
  let text := [0x61; 0x20AC; 0xD83D; 0xDE00; 0xD800; 0x62] in
  utf.isCodePointBoundary text 4 = true
  /\ utf.codeUnitsToUtf8Bytes text 4 = 8
  /\ utf.utf8BytesToCodeUnits text (utf.codeUnitsToUtf8Bytes text 4) = 4.
Proof.
  intros text.
  split; [reflexivity|]. split; [reflexivity|].
  exact (utf_roundtrip text 4 eq_refl).
Defined.

(** * Further properties of the provider *)

(** [run_provider], remembering whether the language is known. *)
Ltac run_provider_lang :=
  step_M;
  (destruct (_ =? Language_UNSPECIFIED) eqn:Hlang); step_M;
  (destruct (10 <? _) eqn:Hlen); step_M;
  (destruct (client _ _ _ _) as [response'|err'] eqn:Hclient); step_M;
  first [ destruct (completionItems response') as [items'|] eqn:Hitems
        | destruct (isCanceled err') eqn:Hcanceled ];
  step_M.

(** Show that an event is in an executed trace. *)
Ltac in_trace := cbn; repeat first [left; reflexivity | right].

(** ** Outcomes *)

(** X1: whatever the client does, a call of [provideInlineCompletions]
    ends with a value: a rejection of the network call never leaves the
    function. *)
Theorem provideInlineCompletions_never_rejects
    `{Imports} model monacoPosition token w :
  exists r,
    result (provideInlineCompletions model monacoPosition token w) = inr r.
Proof. run_provider; eexists; reflexivity. Qed.

(** X2: the function returns an object with items exactly when the call
    is fulfilled by a response whose item collection is present; in every
    other run it returns [undefined]. *)
Theorem items_returned_iff_collection_present
    `{Imports} model monacoPosition token w :
  let o := provideInlineCompletions model monacoPosition token w in
  ((exists returned, result o = inr (Some returned))
   <-> (exists response cis,
          In (ESettled (Fulfilled response)) (effects o)
          /\ completionItems response = Some cis))
  /\ (result o = inr None
      \/ exists returned, result o = inr (Some returned)).
Proof.
  intros o. subst o. run_provider.
  all: split; [split|].
  all: try (intros [returned Hr]; discriminate Hr).
  all: try (intros (response & cis & Hin & Hcis); find_settlement Hin;
            first [congruence | eexists; reflexivity]).
  all: try (intros _; exists response', items'; split; [in_trace|done]).
  all: first [left; reflexivity | right; eexists; reflexivity].
Qed.

(** X3: the reports of a run to the embedder are [PROCESSING] and its
    message, followed by nothing, or by [SUCCESS] and a message, or by
    [ERROR] and the fixed message: every status is followed at once by a
    message, there is at most one terminal status, and [IDLE] is never
    reported. *)
Theorem report_protocol `{Imports} model monacoPosition token w :
  let o := provideInlineCompletions model monacoPosition token w in
  exists tail,
    List.filter isReport (effects o)
    = ESetStatus PROCESSING :: ESetMessage "Generating completions..." :: tail
    /\ (tail = []
        \/ (exists message, tail = [ESetStatus SUCCESS; ESetMessage message])
        \/ tail = [ESetStatus ERROR;
                   ESetMessage "Something went wrong; please try again."]).
Proof.
  intros o. subst o. run_provider.
  all: eexists; split; [reflexivity|].
  all: first [ left; reflexivity
             | right; left; eexists; reflexivity
             | right; right; reflexivity ].
Qed.

(** Only a [ConnectError] whose code is [Canceled] counts as a
    cancellation. *)
Lemma isCanceled_spec err :
  isCanceled err = true <-> exists m, err = ConnectError Canceled m.
Proof.
  split.
  - destruct err as [[] m|]; try discriminate. intros _. by exists m.
  - by intros [m ->].
Qed.

(** X4: [ERROR] is reported exactly when the call is rejected with
    anything that is not a [ConnectError] of code [Canceled]: a
    [ConnectError] of another code and an error of another class are both
    reported. *)
Theorem error_reported_iff_failure `{Imports} model monacoPosition token w :
  let o := provideInlineCompletions model monacoPosition token w in
  In (ESetStatus ERROR) (effects o)
  <-> exists err,
        In (ESettled (Rejected err)) (effects o)
        /\ forall m, err <> ConnectError Canceled m.
Proof.
  intros o. subst o. run_provider.
  all: split; [intros Hin | intros (err & Hin & Hnot)].
  all: try solve [cbn in Hin; exfalso; intuition discriminate].
  all: try solve [exists err'; split;
                  [in_trace | intros m ->; discriminate Hcanceled]].
  all: find_settlement Hin.
  all: first [ solve [in_trace]
             | apply isCanceled_spec in Hcanceled as [m ->];
               by destruct (Hnot m) ].
Qed.

(** ** Cancellation wiring *)

(** X5: the two cancellation callbacks are registered on the caller's
    token first of all, before anything is reported and before the call is
    issued, and a run registers nothing else: no callback is registered
    once the call is awaited. *)
Theorem cancellation_registered_first
    `{Imports} model monacoPosition token w :
  let o := provideInlineCompletions model monacoPosition token w in
  (exists rest,
     effects o
     = EOnCancellationRequested token InvokeCancellationCallback
       :: EOnCancellationRequested token AbortTheRequest
       :: ESetStatus PROCESSING :: rest)
  /\ omap (fun e => match e with
                    | EOnCancellationRequested t callback => Some (t, callback)
                    | _ => None
                    end) (effects o)
     = [(token, InvokeCancellationCallback); (token, AbortTheRequest)].
Proof.
  intros o. subst o. run_provider.
  all: split; [eexists; reflexivity|reflexivity].
Qed.

(** ** What the request carries *)

(** X6: the [Authorization] header of a call is "Basic", the API key of
    the request's metadata, a dash, and its session id; the session id is
    the provider's, and the API key is the provider's own key when it has
    one (an empty key included) and the editor's built-in key otherwise. *)
Theorem authorization_matches_metadata
    `{Imports} model monacoPosition token w :
  let o := provideInlineCompletions model monacoPosition token w in
  exists request options,
    callsOf (effects o) = [(request, options)]
    /\ Authorization (headers options)
       = "Basic " +:+ md_apiKey (metadata request)
         +:+ "-" +:+ md_sessionId (metadata request)
    /\ md_sessionId (metadata request) = sessionId (this w)
    /\ (apiKey (this w) = None ->
        md_apiKey (metadata request) = EDITOR_API_KEY)
    /\ (forall key, apiKey (this w) = Some key ->
                    md_apiKey (metadata request) = key).
Proof.
  intros o. subst o. run_provider.
  all: do 2 eexists; split; [reflexivity|].
  all: cbn [headers Authorization metadata md_apiKey md_sessionId].
  all: split; [reflexivity|]; split; [reflexivity|].
  all: split; [by intros -> | by intros key ->].
Qed.

Lemma authorization_matches_metadata_witness :
  let w := Demo.provider (Rejected (OtherError "offline")) None 0 in
  let o := Demo.run (Rejected (OtherError "offline")) None 0 in
  apiKey (this w) = None
  /\ map (fun c => md_apiKey (metadata (fst c))) (callsOf (effects o))
     = ["d49954eb-cfba-4992-980f-d8fb37f0e942"]
  /\ map (fun c => Authorization (headers (snd c))) (callsOf (effects o))
     = ["Basic d49954eb-cfba-4992-980f-d8fb37f0e942-react-editor-0000"].
Proof.
  intros w o.
  destruct (@authorization_matches_metadata Demo.imports Demo.model
              Demo.cursor Demo.token w)
    as (request & options & Hcalls & Hauth & Hsession & Hdefault & _).
  split; [reflexivity|].
  subst o. unfold Demo.run. fold w. rewrite Hcalls. cbn [map fst snd].
  rewrite Hauth, Hsession, (Hdefault eq_refl). split; reflexivity.
Defined.

(** X7: a language that the table does not know does not stop the
    request: the warning "Unknown language: id" is written exactly when
    the language maps to [UNSPECIFIED], and in every case the request is
    issued with the editor's language id and the mapped language. *)
Theorem unknown_language_only_warns
    `{Imports} model monacoPosition token w :
  let o := provideInlineCompletions model monacoPosition token w in
  let doc := Document_new model in
  (languageIdToEnum (languageId doc) = Language_UNSPECIFIED
   <-> In ("Unknown language: " +:+ languageId doc) (warningsOf (effects o)))
  /\ exists request sent,
       requestsOf (effects o) = [(request, sent)]
       /\ editorLanguage (document request) = languageId doc
       /\ language (document request) = languageIdToEnum (languageId doc).
Proof.
  intros o doc. subst o doc. run_provider_lang.
  all: split; [|do 2 eexists; repeat split; reflexivity].
  all: first [apply N.eqb_eq in Hlang | apply N.eqb_neq in Hlang].
  all: split; [intros Hunknown | intros Hin].
  all: try solve [in_trace].
  all: try solve [done].
  all: cbn in Hin; exfalso; intuition discriminate.
Qed.

(** X8: with at most 10 auxiliary documents nothing is copied: the request
    refers to the provider's own array, all of its documents are sent, the
    state is left as it was and no "Too many other documents" warning is
    written. *)
Theorem short_list_is_shared `{Imports} model monacoPosition token w :
  let o := provideInlineCompletions model monacoPosition token w in
  let docs := deref w (this_otherDocuments (this w)) in
  (length docs <= 10)%nat ->
  world o = w
  /\ (exists request,
        requestsOf (effects o) = [(request, docs)]
        /\ otherDocuments request = this_otherDocuments (this w))
  /\ forall n : N,
       ~ In ("Too many other documents: " +:+ pretty n +:+ " (max 10)")
            (warningsOf (effects o)).
Proof.
  intros o docs Hshort. subst o docs. run_provider.
  all: try (apply N.ltb_lt in Hlen; lia).
  all: split; [reflexivity|].
  all: split; [eexists; split; reflexivity|].
  all: intros n Hin; cbn in Hin; intuition discriminate.
Qed.

Lemma short_list_is_shared_witness :
  let w := Demo.provider (Rejected (OtherError "offline")) None 10 in
  let o := Demo.run (Rejected (OtherError "offline")) None 10 in
  (length (deref w (this_otherDocuments (this w))) <= 10)%nat
  /\ world o = w
  /\ map snd (requestsOf (effects o)) = [Demo.docs 10].
Proof.
  intros w o.
  assert (Hshort : (length (deref w (this_otherDocuments (this w))) <= 10)%nat).
  { vm_compute. lia. }
  destruct (@short_list_is_shared Demo.imports Demo.model Demo.cursor
              Demo.token w Hshort)
    as (Hworld & (request & Hrequests & _) & _).
  split; [exact Hshort|]. split; [exact Hworld|].
  subst o. unfold Demo.run. fold w. rewrite Hrequests. reflexivity.
Defined.

(** X9: the console is written to only before the call is issued: nothing
    is logged once the call has settled, so the cause of a failed call is
    not logged either. *)
Theorem console_silent_after_call `{Imports} model monacoPosition token w :
  let o := provideInlineCompletions model monacoPosition token w in
  warningsOf (afterSettled (effects o)) = []
  /\ warningsOf (effects o) = warningsOf (beforeCall (effects o)).
Proof.
  intros o. subst o. run_provider; split; reflexivity.
Qed.

(** ** Calls in sequence *)

(** What a call leaves and what it sends, in terms of the state it
    starts from. *)
Lemma run_summary `{Imports} model monacoPosition token w :
  let o := provideInlineCompletions model monacoPosition token w in
  this (world o) = this w
  /\ deref (world o) (this_otherDocuments (this w))
     = deref w (this_otherDocuments (this w))
  /\ map snd (requestsOf (effects o))
     = [take 10 (deref w (this_otherDocuments (this w)))]
  /\ map (fun c => (metadata (fst c), multilineConfig (fst c),
                    headers (snd c))) (callsOf (effects o))
     = [({| ideName := "web";
            ideVersion := default "unknown" getCurrentURL;
            extensionName := "@codeium/react-code-editor";
            extensionVersion := default "unknown" getPackageVersion;
            md_apiKey := default EDITOR_API_KEY (apiKey (this w));
            md_sessionId := sessionId (this w) |},
         match multilineModelThreshold (this w) with
         | Some t => if number_truthy t then Some {| threshold := t |}
                     else None
         | None => None
         end,
         {| Authorization :=
              "Basic " +:+ default EDITOR_API_KEY (apiKey (this w))
              +:+ "-" +:+ sessionId (this w) |})].
Proof.
  intros o. subst o. run_provider.
  all: split; [reflexivity|]; cbn [this].
  all: split;
    [ first [ reflexivity
            | rewrite deref_alloc_ne, deref_eta;
              [reflexivity | by apply nonempty_not_fresh, long_nonempty] ]
    | ].
  all: split; [|reflexivity].
  all: cbn [requestsOf omap list_omap map snd].
  all: rewrite ?deref_alloc_eq, ?slice_0_take.
  all: change (N.to_nat 10) with 10%nat.
  all: first [reflexivity | by rewrite short_take].
Qed.

(** X10: two calls in a row on the same provider, whatever the models,
    the positions and the outcome of the first call, send the same
    metadata (so the same session id and API key), the same
    [Authorization] header, the same multiline configuration and the same
    auxiliary documents. *)
Theorem consecutive_calls_agree
    `{Imports} model1 position1 token1 model2 position2 token2 w :
  let o1 := provideInlineCompletions model1 position1 token1 w in
  let o2 := provideInlineCompletions model2 position2 token2 (world o1) in
  map (fun c => (metadata (fst c), multilineConfig (fst c), headers (snd c)))
      (callsOf (effects o2))
  = map (fun c => (metadata (fst c), multilineConfig (fst c),
                   headers (snd c))) (callsOf (effects o1))
  /\ map snd (requestsOf (effects o2)) = map snd (requestsOf (effects o1))
  /\ this (world o2) = this w.
Proof.
  intros o1 o2.
  destruct (run_summary model1 position1 token1 w)
    as (Hthis1 & Hdocs1 & Hsent1 & Hcall1).
  destruct (run_summary model2 position2 token2 (world o1))
    as (Hthis2 & Hdocs2 & Hsent2 & Hcall2).
  fold o1 in Hthis1, Hdocs1, Hsent1, Hcall1, Hthis2, Hdocs2, Hsent2, Hcall2.
  fold o2 in Hthis2, Hdocs2, Hsent2, Hcall2.
  rewrite Hcall2, Hcall1, Hsent2, Hsent1, Hthis2, Hthis1, Hdocs1.
  repeat split; reflexivity.
Qed.

(** X11: the first call of a provider that was just constructed sends no
    auxiliary documents, identifies the session as "react-editor-"
    followed by the generated uuid, and leaves the provider as
    constructed. *)
Theorem fresh_provider_request
    `{Imports} grpcClient key threshold0 model monacoPosition token :
  let w := new_MonacoCompletionProvider grpcClient key threshold0 in
  let o := provideInlineCompletions model monacoPosition token w in
  map snd (requestsOf (effects o)) = [[]]
  /\ map (fun c => md_sessionId (metadata (fst c))) (callsOf (effects o))
     = ["react-editor-" +:+ uuid]
  /\ warningsOf (effects o)
     = (if languageIdToEnum (languageId (Document_new model))
           =? Language_UNSPECIFIED
        then ["Unknown language: " +:+ languageId (Document_new model)]
        else [])
  /\ this (world o) = this w.
Proof.
  intros w o.
  assert (Hempty : deref w (this_otherDocuments (this w)) = []) by reflexivity.
  subst o. run_provider_lang.
  all: try (rewrite Hempty in Hlen; discriminate Hlen).
  all: rewrite ?Hempty; repeat split; reflexivity.
Qed.

(** ** Acceptance tokens *)

(** What the items made from a list of wire items display and carry. *)
Lemma shown_of_mapped `{Imports} doc (cis : list CompletionItem) :
  map shown (omap (fun ci => createInlineCompletionItem ci doc) cis)
  = omap (fun ci =>
            match completion ci, range ci with
            | Some c, Some _ =>
                Some (completion_text c,
                      [completionId c; completion_text c])
            | _, _ => None
            end) cis.
Proof.
  induction cis as [|ci cis IH]; [reflexivity|].
  cbn [omap list_omap]. unfold createInlineCompletionItem at 1.
  destruct (completion ci) as [c|], (range ci) as [r|]; cbn [map]; try exact IH.
  f_equal. exact IH.
Qed.

(** X12: the items returned for a response display the texts of its
    well-formed wire items, in their order, and the acceptance command of
    each carries the completion id and the text of the wire item it was
    made from. *)
Theorem returned_items_carry_tokens
    `{Imports} model monacoPosition token w response cis :
  let o := provideInlineCompletions model monacoPosition token w in
  In (ESettled (Fulfilled response)) (effects o) ->
  completionItems response = Some cis ->
  exists returned,
    result o = inr (Some {| items := map Some returned |})
    /\ map shown returned
       = omap (fun ci =>
                 match completion ci, range ci with
                 | Some c, Some _ =>
                     Some (completion_text c,
                           [completionId c; completion_text c])
                 | _, _ => None
                 end) cis
    /\ Forall (fun item => mic_text item = insertText item
                           /\ id (command item) = "codeium.acceptCompletion")
              returned.
Proof.
  intros o Hin Hcis. subst o.
  exists (omap (fun ci => createInlineCompletionItem ci (Document_new model))
               cis).
  split; [|split].
  - revert Hin. run_provider.
    all: intros Hin; find_settlement Hin; try congruence.
    all: rewrite Hcis in Hitems; injection Hitems as <-.
    all: by rewrite filter_truthy_map.
  - apply shown_of_mapped.
  - clear Hin Hcis. induction cis as [|ci cis IH]; [constructor|].
    cbn [omap list_omap]. unfold createInlineCompletionItem at 1.
    destruct (completion ci) as [c|], (range ci) as [r|]; try exact IH.
    constructor; [split; reflexivity | exact IH].
Qed.

Lemma returned_items_carry_tokens_witness :
  let cis := [Demo.noCompletion; Demo.goodItem "a"; Demo.noRange "b";
              Demo.goodItem "c"] in
  let o := Demo.run (Fulfilled {| completionItems := Some cis |}) None 0 in
  In (ESettled (Fulfilled {| completionItems := Some cis |})) (effects o)
  /\ exists returned,
       result o = inr (Some {| items := map Some returned |})
       /\ map shown returned
          = [(" = 1", ["a"; " = 1"]); (" = 1", ["c"; " = 1"])].
Proof.
  intros cis o.
  assert (Hin : In (ESettled (Fulfilled {| completionItems := Some cis |}))
                   (effects o)).
  { vm_compute. tauto. }
  split; [exact Hin|].
  destruct (@returned_items_carry_tokens Demo.imports Demo.model Demo.cursor
              Demo.token _ _ cis Hin eq_refl)
    as (returned & Hresult & Hshown & _).
  exists returned. split; [exact Hresult|].
  rewrite Hshown. reflexivity.
Defined.

(** ** Acceptance reporting *)

(** X13: [acceptedLastCompletion] sends one acknowledgment, for the id it
    was given, and leaves the provider and the store as they were.  When
    the acknowledgment is rejected the error is written to the console
    with the label "Error: " and nothing else happens; when it is
    fulfilled nothing is written. *)
Theorem acceptance_is_fire_and_forget
    `{Imports} acceptCompletion completionId w :
  let a := acceptedLastCompletion acceptCompletion completionId w in
  ack_world a = w
  /\ exists request options,
       acksOf (ack_effects a) = [(request, options)]
       /\ ac_completionId request = completionId
       /\ (forall err,
             acceptCompletion request options = AcceptRejected err ->
             ack_effects a
             = [EAcceptCompletion request options;
                EConsoleLog "Error: " err])
       /\ (acceptCompletion request options = AcceptFulfilled ->
           ack_effects a = [EAcceptCompletion request options; EResolve]).
Proof.
  intros a. subst a.
  cbv beta iota zeta delta
    [acceptedLastCompletion getAuthHeader getMetadata gets mbind mret
     M_bind M_ret].
  split; [reflexivity|]. cbn [ack_effects].
  do 2 eexists. split.
  - cbn [acksOf omap list_omap].
    destruct (acceptCompletion _ _); reflexivity.
  - split; [reflexivity|].
    split; [intros err Herr | intros Hok]; rewrite ?Herr, ?Hok; reflexivity.
Qed.

Lemma acceptance_is_fire_and_forget_witness :
  let w := Demo.provider (Rejected (OtherError "offline")) None 0 in
  let failing : AcceptCompletionClient :=
    fun _ _ => AcceptRejected (OtherError "offline") in
  let a := @acceptedLastCompletion Demo.imports failing "a" w in
  ack_world a = w
  /\ map (fun r => ac_completionId (fst r)) (acksOf (ack_effects a)) = ["a"]
  /\ last (ack_effects a) = Some (EConsoleLog "Error: " (OtherError "offline")).
Proof.
  intros w failing a.
  destruct (@acceptance_is_fire_and_forget Demo.imports failing "a" w)
    as (Hworld & request & options & Hacks & Hid & Hrejected & _).
  fold a in Hworld, Hacks, Hrejected.
  split; [exact Hworld|]. split.
  - rewrite Hacks. cbn [map fst]. by rewrite Hid.
  - rewrite (Hrejected (OtherError "offline") eq_refl). reflexivity.
Defined.

(** X14: an acknowledgment is sent under the same identity as a completion
    request of the same provider: the same metadata and the same
    [Authorization] header. *)
Theorem acknowledgment_shares_identity
    `{Imports} acceptCompletion completionId model monacoPosition token w :
  let o := provideInlineCompletions model monacoPosition token w in
  let a := acceptedLastCompletion acceptCompletion completionId (world o) in
  map (fun r => (ac_metadata (fst r), ac_headers (snd r)))
      (acksOf (ack_effects a))
  = map (fun c => (metadata (fst c), headers (snd c))) (callsOf (effects o)).
Proof.
  intros o a.
  destruct (run_summary model monacoPosition token w)
    as (Hthis & _ & _ & Hcall).
  fold o in Hthis, Hcall.
  assert (Hcalls :
    map (fun c => (metadata (fst c), headers (snd c))) (callsOf (effects o))
    = map (fun x => (fst (fst x), snd x))
          (map (fun c => (metadata (fst c), multilineConfig (fst c),
                          headers (snd c))) (callsOf (effects o)))).
  { rewrite map_map. reflexivity. }
  rewrite Hcalls, Hcall. subst a.
  cbv beta iota zeta delta
    [acceptedLastCompletion getAuthHeader getMetadata gets mbind mret
     M_bind M_ret].
  cbn [ack_effects acksOf omap list_omap].
  rewrite Hthis.
  destruct (acceptCompletion _ _); reflexivity.
Qed.

(** X15: accepting a displayed item acknowledges the completion it was
    made from: the first argument of the item's command, passed to
    [acceptedLastCompletion], is sent as the completion id of the wire
    item. *)
Theorem accepting_acknowledges_the_wire_completion
    `{Imports} acceptCompletion ci doc item w :
  createInlineCompletionItem ci doc = Some item ->
  exists c accepted rest,
    completion ci = Some c
    /\ arguments (command item) = accepted :: rest
    /\ map (fun r => ac_completionId (fst r))
           (acksOf (ack_effects
                      (acceptedLastCompletion acceptCompletion accepted w)))
       = [completionId c].
Proof.
  unfold createInlineCompletionItem.
  destruct (completion ci) as [c|], (range ci) as [r|]; try discriminate.
  intros [= <-]. exists c. do 2 eexists.
  split; [reflexivity|]. split; [reflexivity|].
  cbv beta iota zeta delta
    [acceptedLastCompletion getAuthHeader getMetadata gets mbind mret
     M_bind M_ret].
  cbn [ack_effects acksOf omap list_omap].
  destruct (acceptCompletion _ _); reflexivity.
Qed.

Lemma accepting_acknowledges_the_wire_completion_witness :
  let doc := @Document_new Demo.imports Demo.model in
  let w := Demo.provider (Rejected (OtherError "offline")) None 0 in
  exists item,
    createInlineCompletionItem (Demo.goodItem "a") doc = Some item
    /\ map (fun r => ac_completionId (fst r))
           (acksOf (ack_effects
                      (@acceptedLastCompletion Demo.imports
                         (fun _ _ => AcceptFulfilled)
                         (hd "none" (arguments (command item))) w)))
       = ["a"].
Proof.
  intros doc w. eexists. split; [reflexivity|].
  destruct (@accepting_acknowledges_the_wire_completion Demo.imports
              (fun _ _ => AcceptFulfilled) (Demo.goodItem "a") doc _ w eq_refl)
    as (c & accepted & rest & Hc & Hargs & Hack).
  injection Hc as <-. injection Hargs as <- _. exact Hack.
Defined.

(** ** A response without a usable item *)

Lemma all_rejected doc (cis : list CompletionItem) :
  Forall (fun ci => completion ci = None \/ range ci = None) cis ->
  List.filter object_truthy
    (map (fun ci => createInlineCompletionItem ci doc) cis) = [].
Proof.
  induction 1 as [|ci cis Hci _ IH]; [reflexivity|].
  cbn [map List.filter].
  apply (createInlineCompletionItem_None ci doc) in Hci. rewrite Hci.
  exact IH.
Qed.

(** X16: a response whose items all lack their completion or their range
    (the empty collection included) is still a success: the provider
    reports [SUCCESS] with "Generated 0 completions" and returns an object
    whose list of items is empty, not [undefined]. *)
Theorem all_malformed_is_empty_success
    `{Imports} model monacoPosition token w response cis :
  let o := provideInlineCompletions model monacoPosition token w in
  In (ESettled (Fulfilled response)) (effects o) ->
  completionItems response = Some cis ->
  Forall (fun ci => completion ci = None \/ range ci = None) cis ->
  result o = inr (Some {| items := [] |})
  /\ afterSettled (effects o)
     = [ESetStatus SUCCESS; ESetMessage "Generated 0 completions"].
Proof.
  intros o Hin Hcis Hbad. subst o. revert Hin. run_provider.
  all: intros Hin; find_settlement Hin; try congruence.
  all: rewrite Hcis in Hitems; injection Hitems as <-.
  all: rewrite (all_rejected _ _ Hbad); split; reflexivity.
Qed.

Lemma all_malformed_is_empty_success_witness :
  let cis := [Demo.noRange "a"; Demo.noCompletion] in
  let o := Demo.run (Fulfilled {| completionItems := Some cis |}) None 0 in
  In (ESettled (Fulfilled {| completionItems := Some cis |})) (effects o)
  /\ Forall (fun ci => completion ci = None \/ range ci = None) cis
  /\ result o = inr (Some {| items := [] |})
  /\ afterSettled (effects o)
     = [ESetStatus SUCCESS; ESetMessage "Generated 0 completions"].
Proof.
  intros cis o.
  assert (Hin : In (ESettled (Fulfilled {| completionItems := Some cis |}))
                   (effects o)).
  { vm_compute. tauto. }
  assert (Hbad : Forall (fun ci => completion ci = None \/ range ci = None)
                        cis).
  { constructor; [right; reflexivity|].
    constructor; [left; reflexivity|]. constructor. }
  split; [exact Hin|]. split; [exact Hbad|].
  exact (@all_malformed_is_empty_success Demo.imports Demo.model Demo.cursor
           Demo.token _ _ cis Hin eq_refl Hbad).
Defined.
